(** * The todos application: views over a table of Todo rows

    A shallow embedding of [todos/views.py] and [todos/urls.py].  The
    database table is a finite map from primary keys to rows; a view is a
    function from the request and the table to a response and the new
    table.  Field names are strings, as in the [changed] list of
    [TodoUpdateView.form_valid]. *)

From stdpp Require Import gmap strings list sorting fin_maps.
From Stdlib Require Import ZArith Lia Ascii.
From Stdlib Require Import Decimal DecimalString DecimalN.

Local Open Scope Z_scope.
Local Open Scope string_scope.

(** ** The Todo model *)

Record date := Date { year : Z; month : Z; day : Z }.

(** Modelled from the spec: [todos/models.py] is not part of the sources;
    the columns are those of the data model table (section 3), timestamps
    being integer clock readings.  The primary key is the key of the row in
    the table. *)
Record Todo := mkTodo {
  title : string;
  description : string;
  due_date : option date;
  resolved : bool;
  created_at : Z;
  updated_at : Z
}.

(** What an attribute of a row can hold. *)
Inductive value :=
| VText (s : string)
| VDate (d : option date)
| VBool (b : bool)
| VTime (t : Z).

Global Instance date_eq_dec : EqDecision date.
Proof. solve_decision. Defined.
Global Instance value_eq_dec : EqDecision value.
Proof. solve_decision. Defined.
Global Instance Todo_eq_dec : EqDecision Todo.
Proof. solve_decision. Defined.

(** [getattr(obj, name)]; [None] when the model has no such field. *)
Definition getattr (name : string) (obj : Todo) : option value :=
  if decide (name = "title") then Some (VText (title obj))
  else if decide (name = "description") then Some (VText (description obj))
  else if decide (name = "due_date") then Some (VDate (due_date obj))
  else if decide (name = "resolved") then Some (VBool (resolved obj))
  else if decide (name = "created_at") then Some (VTime (created_at obj))
  else if decide (name = "updated_at") then Some (VTime (updated_at obj))
  else None.

(** The column [name] of [row] overwritten by the attribute of [obj]. *)
Definition write_column (name : string) (obj row : Todo) : Todo :=
  if decide (name = "title") then
    mkTodo (title obj) (description row) (due_date row) (resolved row)
           (created_at row) (updated_at row)
  else if decide (name = "description") then
    mkTodo (title row) (description obj) (due_date row) (resolved row)
           (created_at row) (updated_at row)
  else if decide (name = "due_date") then
    mkTodo (title row) (description row) (due_date obj) (resolved row)
           (created_at row) (updated_at row)
  else if decide (name = "resolved") then
    mkTodo (title row) (description row) (due_date row) (resolved obj)
           (created_at row) (updated_at row)
  else if decide (name = "created_at") then
    mkTodo (title row) (description row) (due_date row) (resolved row)
           (created_at obj) (updated_at row)
  else if decide (name = "updated_at") then
    mkTodo (title row) (description row) (due_date row) (resolved row)
           (created_at row) (updated_at obj)
  else row.

(** The concrete fields of the model other than the primary key. *)
Definition model_fields : list string :=
  ["title"; "description"; "due_date"; "resolved"; "created_at"; "updated_at"].

(** The table of the model, keyed by primary key. *)
Abbreviation table := (gmap Z Todo).

(** ** Responses *)

Inductive exn :=
| ValueError      (* update_fields names a field the model does not have *)
| DatabaseError.  (* save with update_fields did not affect any rows *)

Inductive response :=
| RenderList (todos : list (Z * Todo))        (* 200, the listing *)
| RenderForm (errors : list (string * string)) (* 200, the form again *)
| Redirect (to : string)                       (* 302 *)
| Http404
| Http500 (e : exn).

Definition status_code (r : response) : Z :=
  match r with
  | RenderList _ | RenderForm _ => 200
  | Redirect _ => 302
  | Http404 => 404
  | Http500 _ => 500
  end.

(** [reverse_lazy("todos:home")], the [success_url] of the class-based
    views and the target of [redirect("todos:home")]: the route with the
    empty path in [urls.py]. *)
Definition home_url : string := "/".

(** ** The ORM operations the views use *)

(** [Case(When(resolved=True, then=Value(False)), default=Value(True))],
    evaluated on the stored value of the column. *)
Definition case_resolved (stored : bool) : bool :=
  if stored then false else true.

(** The assignment of the UPDATE statement to one row: only [resolved] is
    in the SET clause of [QuerySet.update(resolved=...)]. *)
Definition update_resolved (row : Todo) : Todo :=
  mkTodo (title row) (description row) (due_date row)
         (case_resolved (resolved row)) (created_at row) (updated_at row).

(** [Todo.objects.filter(pk=pk).update(...)]: one statement; rows whose key
    is not [pk] and a table without [pk] are left as they are. *)
Definition filter_pk_update (f : Todo → Todo) (pk : Z) (db : table) : table :=
  alter f pk db.

(** [pre_save] of the fields listed in [update_fields]: a field with
    [auto_now] (here [updated_at]) takes the clock reading. *)
Definition pre_save (update_fields : list string) (now : Z) (obj : Todo) : Todo :=
  if bool_decide ("updated_at" ∈ update_fields) then
    mkTodo (title obj) (description obj) (due_date obj) (resolved obj)
           (created_at obj) now
  else obj.

(** [obj.save(update_fields=...)] for the instance with key [pk]: the
    UPDATE writes the listed columns only. *)
Definition save_update_fields (update_fields : list string) (now : Z)
    (pk : Z) (obj : Todo) (db : table) : exn + table :=
  match update_fields with
  | [] => inr db
  | _ =>
    if bool_decide (Forall (λ n, n ∈ model_fields) update_fields) then
      match db !! pk with
      | Some row =>
        inr (<[pk := foldr (λ n r, write_column n (pre_save update_fields now obj) r)
                           row update_fields]> db)
      | None => inl DatabaseError
      end
    else inl ValueError
  end.

(** ** toggle_resolved *)

Definition toggle_resolved (pk : Z) (db : table) : response * table :=
  let db := filter_pk_update update_resolved pk db in
  (Redirect home_url, db).

(** ** Deleting and listing *)

Definition get_object (pk : Z) (db : table) : option Todo := db !! pk.

(** Modelled from the spec: the [Meta.ordering] of the model is declared in
    [todos/models.py], which is not part of the sources; the default
    listing order is by [created_at] descending (section 3). *)
Definition newest_first (a b : Z * Todo) : Prop :=
  (created_at b.2 ≤ created_at a.2)%Z.

Global Instance newest_first_dec : RelDecision newest_first.
Proof. intros a b. unfold newest_first. apply _. Defined.

(** [Todo.objects.all()] in the default order. *)
Definition objects_all (db : table) : list (Z * Todo) :=
  merge_sort newest_first (map_to_list db).

(** The key the database gives to an inserted row: above every key in use. *)
Definition next_pk (db : table) : Z :=
  (1 + foldr Z.max 0 (map_to_list db).*1)%Z.

(** [obj.save()] of an instance that has no key yet: an INSERT; the fields
    with [auto_now_add] and [auto_now] take the clock reading. *)
Definition save_new (obj : Todo) (now : Z) (db : table) : table :=
  <[next_pk db := mkTodo (title obj) (description obj) (due_date obj)
                         (resolved obj) now now]> db.

(** ** The form *)

Abbreviation querydict := (gmap string string).

(** Python's [str.isspace] on the ASCII range. *)
Definition is_space (c : ascii) : bool :=
  let n := nat_of_ascii c in
  ((9 <=? n)%nat && (n <=? 13)%nat) || ((28 <=? n)%nat && (n <=? 32)%nat).

Fixpoint lstrip (s : string) : string :=
  match s with
  | String c s' => if is_space c then lstrip s' else s
  | EmptyString => EmptyString
  end.

Definition strip (s : string) : string :=
  String.rev (lstrip (String.rev (lstrip s))).

Definition lower_ascii (c : ascii) : ascii :=
  let n := nat_of_ascii c in
  if ((65 <=? n)%nat && (n <=? 90)%nat) then ascii_of_nat (n + 32) else c.

Fixpoint lower (s : string) : string :=
  match s with
  | String c s' => String (lower_ascii c) (lower s')
  | EmptyString => EmptyString
  end.

(** Modelled from the spec: the normalized field set that the validation
    layer gives for a valid submission (section 4.2); the form of
    [todos/forms.py] is not part of the sources. *)
Record cleaned_data := mkCleaned {
  c_title : string;
  c_description : string;
  c_due_date : option date;
  c_resolved : bool
}.

(** Modelled from the spec: the fields a submission carries, the ones the
    tests post; [id], [created_at] and [updated_at] are assigned by the
    store (section 4.1). *)
Definition form_fields : list string :=
  ["title"; "description"; "due_date"; "resolved"].

(** The error texts that the tests look for in the rendered form. *)
Definition required_message : string := "This field is required.".
Definition invalid_date_message : string := "Enter a valid date.".

(** Modelled from the spec: [todos/forms.py] is not part of the sources.
    A submitted checkbox: absent, empty or "false" is false, anything else
    is true, so [resolved] is false unless explicitly set true
    (section 4.1). *)
Definition clean_resolved (post : querydict) : bool :=
  match post !! "resolved" with
  | None => false
  | Some v => negb (bool_decide (v = "") || bool_decide (lower v = "false"))
  end.

(** Modelled from the spec: [description] is optional and defaults to
    empty (section 3). *)
Definition clean_description (post : querydict) : string :=
  default "" (post !! "description").

(** Modelled from the spec: [title] must be present and non-empty after
    trimming (section 4.2). *)
Definition clean_title (post : querydict) : string + string :=
  let v := strip (default "" (post !! "title")) in
  if decide (v = "") then inl required_message else inr v.

Section validation.
(** The parser of the accepted date formats, which the sources do not
    fix: [None] when the text is not a calendar date. *)
Variable parse_date : string → option date.

(** Modelled from the spec: [due_date], if provided and non-empty, must
    parse as a calendar date; the empty string is "not provided"
    (section 4.2). *)
Definition clean_due_date (post : querydict) : string + option date :=
  match post !! "due_date" with
  | None => inr None
  | Some v =>
    if decide (v = "") then inr None
    else match parse_date v with
         | Some d => inr (Some d)
         | None => inl invalid_date_message
         end
  end.

Definition field_errors {A} (name : string) (r : string + A)
    : list (string * string) :=
  match r with
  | inl msg => [(name, msg)]
  | inr _ => []
  end.

(** Modelled from the spec: the validation layer gives either the
    normalized field set or the errors by field name (section 4.2). *)
Definition full_clean (post : querydict)
    : list (string * string) + cleaned_data :=
  match clean_title post, clean_due_date post with
  | inr t, inr d =>
    inr (mkCleaned t (clean_description post) d (clean_resolved post))
  | rt, rd =>
    inl (field_errors "title" rt ++ field_errors "due_date" rd)%list
  end.
End validation.

(** A form bound to a submission and to the instance it edits.
    [instance] is the object as it was loaded, from which the initial
    values of the form are taken. *)
Record model_form := mkForm {
  instance : Todo;
  cleaned : cleaned_data
}.

(** [form.save(commit=False)]: the instance with the cleaned values of the
    form fields assigned; nothing is written. *)
Definition save_no_commit (form : model_form) : Todo :=
  let c := cleaned form in
  let obj := instance form in
  mkTodo (c_title c) (c_description c) (c_due_date c) (c_resolved c)
         (created_at obj) (updated_at obj).

(** [form.changed_data]: the form fields whose submitted value differs
    from the initial value. *)
Definition changed_data (form : model_form) : list string :=
  filter (λ n, getattr n (save_no_commit form) ≠ getattr n (instance form))
         form_fields.

(** [form.cleaned_data[name]]: the submitted value of a field of the form,
    as the validation gave it; [None] for a name that is not a form
    field. *)
Definition cleaned_attr (name : string) (c : cleaned_data) : option value :=
  if decide (name = "title") then Some (VText (c_title c))
  else if decide (name = "description") then Some (VText (c_description c))
  else if decide (name = "due_date") then Some (VDate (c_due_date c))
  else if decide (name = "resolved") then Some (VBool (c_resolved c))
  else None.

(** The form fields whose submitted value differs from the value that
    the object [obj] holds. *)
Definition changed_from (c : cleaned_data) (obj : Todo) : list string :=
  filter (λ n, cleaned_attr n c ≠ getattr n obj) form_fields.

(** Modelled from the spec: the instance a create form starts from holds
    the defaults of the model, an empty [description] and [resolved] false
    (section 3); its timestamps are assigned when it is saved. *)
Definition new_todo : Todo := mkTodo "" "" None false 0 0.

(** ** The class-based views *)

(** The [update_fields] that [form_valid] passes to [save], if it saves:
<<
        changed = list(form.changed_data)
        if changed:
            if "updated_at" not in changed:
                changed.append("updated_at")
>>
*)
Definition update_fields_of (form : model_form) : option (list string) :=
  let changed := changed_data form in
  match changed with
  | [] => None
  | _ =>
    Some (if bool_decide ("updated_at" ∈ changed) then changed
          else (changed ++ ["updated_at"])%list)
  end.

(** [TodoUpdateView.form_valid]. *)
Definition form_valid (form : model_form) (pk : Z) (now : Z) (db : table)
    : response * table :=
  let obj := save_no_commit form in
  match update_fields_of form with
  | Some changed =>
    match save_update_fields changed now pk obj db with
    | inr db' => (Redirect home_url, db')
    | inl e => (Http500 e, db)
    end
  | None => (Redirect home_url, db)
  end.

Definition TodoListView_get (db : table) : response :=
  RenderList (objects_all db).

Definition TodoDeleteView_post (pk : Z) (db : table) : response * table :=
  match get_object pk db with
  | Some _ => (Redirect home_url, delete pk db)
  | None => (Http404, db)
  end.

Section views.
Variable parse_date : string → option date.

(** [TodoCreateView]: the form is validated; a valid form is saved and
    the response redirects, an invalid one is rendered again. *)
Definition TodoCreateView_post (post : querydict) (now : Z) (db : table)
    : response * table :=
  match full_clean parse_date post with
  | inr c => (Redirect home_url,
              save_new (save_no_commit (mkForm new_todo c)) now db)
  | inl errors => (RenderForm errors, db)
  end.

(** The first half of [TodoUpdateView]'s POST: [get_object], then the
    form bound to the loaded instance and validated. *)
Definition bind_form (pk : Z) (post : querydict) (db : table)
    : response + model_form :=
  match get_object pk db with
  | Some obj =>
    match full_clean parse_date post with
    | inr c => inr (mkForm obj c)
    | inl errors => inl (RenderForm errors)
    end
  | None => inl Http404
  end.

(** [TodoUpdateView]'s POST, handled without interruption. *)
Definition TodoUpdateView_post (pk : Z) (post : querydict) (now : Z)
    (db : table) : response * table :=
  match bind_form pk post db with
  | inr form => form_valid form pk now db
  | inl r => (r, db)
  end.

(** *** Two edit requests handled by two workers

    Each worker runs the two database statements of its request in
    order: the SELECT of [get_object], then (for a valid form with
    changes) the UPDATE of [save].  A schedule says which worker runs
    its next statement. *)
Inductive worker := WA | WB.

Record edit_request := mkEdit { e_post : querydict; e_now : Z }.

Record edit_state := mkState {
  bound : option model_form;
  answer : option response
}.

Definition edit_start : edit_state := mkState None None.

Definition edit_step (pk : Z) (req : edit_request) (st : edit_state)
    (db : table) : edit_state * table :=
  match answer st, bound st with
  | Some _, _ => (st, db)
  | None, None =>
    match bind_form pk (e_post req) db with
    | inr form => (mkState (Some form) None, db)
    | inl r => (mkState None (Some r), db)
    end
  | None, Some form =>
    let '(r, db') := form_valid form pk (e_now req) db in
    (mkState (Some form) (Some r), db')
  end.

Record system := mkSystem {
  sys_db : table;
  sys_a : edit_state;
  sys_b : edit_state
}.

Definition sys_step (pk : Z) (ra rb : edit_request) (sys : system)
    (w : worker) : system :=
  match w with
  | WA => let '(st, db) := edit_step pk ra (sys_a sys) (sys_db sys) in
          mkSystem db st (sys_b sys)
  | WB => let '(st, db) := edit_step pk rb (sys_b sys) (sys_db sys) in
          mkSystem db (sys_a sys) st
  end.

Definition run (pk : Z) (ra rb : edit_request) (schedule : list worker)
    (db : table) : system :=
  foldl (sys_step pk ra rb) (mkSystem db edit_start edit_start) schedule.

(** A worker holds a bound form only for a submission that validates. *)
Definition bound_valid (req : edit_request) (st : edit_state) : Prop :=
  ∀ f, bound st = Some f →
       full_clean parse_date (e_post req) = inr (cleaned f).
End views.

Global Instance worker_eq_dec : EqDecision worker.
Proof. solve_decision. Defined.

(** ** A date parser *)

Definition digit_of (c : ascii) : option Z :=
  let n := nat_of_ascii c in
  if ((48 <=? n)%nat && (n <=? 57)%nat) then Some (Z.of_nat (n - 48)) else None.

Fixpoint number_from (acc : Z) (s : string) : option Z :=
  match s with
  | EmptyString => Some acc
  | String c s' =>
    match digit_of c with
    | Some d => number_from (10 * acc + d)%Z s'
    | None => None
    end
  end.

(** A non-empty run of at most [width] digits. *)
Definition number (width : nat) (s : string) : option Z :=
  if bool_decide (s = "") then None
  else if bool_decide (String.length s ≤ width)%nat then number_from 0 s
  else None.

(** [s.split(sep)]. *)
Fixpoint split (sep : ascii) (s : string) : list string :=
  match s with
  | EmptyString => [""]
  | String c s' =>
    if decide (c = sep) then "" :: split sep s'
    else match split sep s' with
         | w :: ws => String c w :: ws
         | [] => [String c ""]
         end
  end.

Definition is_leap (y : Z) : bool :=
  ((y mod 4 =? 0) && (negb (y mod 100 =? 0) || (y mod 400 =? 0)))%Z.

Definition days_in_month (y m : Z) : Z :=
  if bool_decide (m ∈ [1; 3; 5; 7; 8; 10; 12]%Z) then 31
  else if bool_decide (m ∈ [4; 6; 9; 11]%Z) then 30
  else if bool_decide (m = 2%Z) then (if is_leap y then 29 else 28)
  else 0.

(** Modelled from the spec: the accepted date formats are not in the
    sources; this is one of them, the ISO format [%Y-%m-%d] that the tests
    submit, with the calendar check of the month and of the day. *)
Definition parse_iso_date (s : string) : option date :=
  match split "-" s with
  | [ys; ms; ds] =>
    match number 4 ys, number 2 ms, number 2 ds with
    | Some y, Some m, Some d =>
      if bool_decide (String.length ys = 4%nat ∧ (1 ≤ y)%Z
                      ∧ (1 ≤ d)%Z ∧ (d ≤ days_in_month y m)%Z)
      then Some (Date y m d) else None
    | _, _, _ => None
    end
  | _ => None
  end.

(** ** Routing: todos/urls.py *)

(** The names of the routes of [urlpatterns]. *)
Inductive url_name :=
| url_home | url_create | url_edit | url_delete | url_toggle_resolved.

Global Instance url_name_eq_dec : EqDecision url_name.
Proof. solve_decision. Defined.

(** A route is a fixed path, or a prefix followed by [<int:pk>/]. *)
Inductive route :=
| Plain (path : string)
| WithPk (prefix : string).

(** [urlpatterns], in the order of the file. *)
Definition urlpatterns : list (route * url_name) :=
  [ (Plain "", url_home);
    (Plain "create/", url_create);
    (WithPk "edit/", url_edit);
    (WithPk "delete/", url_delete);
    (WithPk "toggle/", url_toggle_resolved) ].

(** The [int] path converter: it matches [[0-9]+] and gives [int(value)]. *)
Definition int_to_python (s : string) : option Z :=
  match s with
  | EmptyString => None
  | _ => (λ d, Z.of_N (N.of_uint d)) <$> NilEmpty.uint_of_string s
  end.

(** [str(value)] for the converter, when the text is one that the
    converter matches: a key below zero has no URL. *)
Definition int_to_url (pk : Z) : option string :=
  if decide (0 ≤ pk)%Z
  then Some (NilEmpty.string_of_uint (N.to_uint (Z.to_N pk)))
  else None.

(** The rest of [s] after the prefix [p], if [s] starts with [p]. *)
Fixpoint strip_prefix (p s : string) : option string :=
  match p, s with
  | EmptyString, _ => Some s
  | String a p', String b s' =>
    if decide (a = b) then strip_prefix p' s' else None
  | String _ _, EmptyString => None
  end.

(** The match of one route against the whole path: the keyword arguments
    on success ([None] for a route without [pk]). *)
Definition match_route (r : route) (path : string) : option (option Z) :=
  match r with
  | Plain p => if decide (path = p) then Some None else None
  | WithPk prefix =>
    match strip_prefix prefix path with
    | Some rest =>
      match split "/" rest with
      | [digits; EmptyString] => Some <$> int_to_python digits
      | _ => None
      end
    | None => None
    end
  end.

(** The first route of the list that matches. *)
Fixpoint resolve_in (patterns : list (route * url_name)) (path : string)
    : option (url_name * option Z) :=
  match patterns with
  | [] => None
  | (r, name) :: patterns' =>
    match match_route r path with
    | Some args => Some (name, args)
    | None => resolve_in patterns' path
    end
  end.

Definition resolve (path : string) : option (url_name * option Z) :=
  resolve_in urlpatterns path.

(** [reverse("todos:<name>", args=[pk])], relative to where the routes are
    mounted; [None] is NoReverseMatch. *)
Definition reverse (name : url_name) (args : option Z) : option string :=
  match list_find (λ p, p.2 = name) urlpatterns with
  | Some (_, (Plain p, _)) =>
    match args with
    | None => Some p
    | Some _ => None
    end
  | Some (_, (WithPk prefix, _)) =>
    match args with
    | Some pk => (λ d, prefix ++ d ++ "/") <$> int_to_url pk
    | None => None
    end
  | None => None
  end.

(** ** Requests *)

Inductive method := GET | POST.

(** What a request ends in: a response of a view, the confirmation page
    of the delete view, a 405 of a class-based view that has no handler
    for the method, or no route at all. *)
Inductive outcome :=
| Response (r : response)
| ConfirmDelete (obj : Todo)
| MethodNotAllowed
| NoRoute.

(** A request through [urlpatterns].  The class-based views handle GET by
    rendering (the list, the form, the confirmation page) and POST by
    processing the submission; [TodoListView] has no POST handler;
    [toggle_resolved] is a function view and does not look at the method. *)
Definition dispatch (parse_date : string → option date) (m : method)
    (path : string) (post : querydict) (now : Z) (db : table)
    : outcome * table :=
  match resolve path with
  | Some (url_home, None) =>
    match m with
    | GET => (Response (TodoListView_get db), db)
    | POST => (MethodNotAllowed, db)
    end
  | Some (url_create, None) =>
    match m with
    | GET => (Response (RenderForm []), db)
    | POST => let '(r, db') := TodoCreateView_post parse_date post now db in
              (Response r, db')
    end
  | Some (url_edit, Some pk) =>
    match m with
    | GET => match get_object pk db with
             | Some _ => (Response (RenderForm []), db)
             | None => (Response Http404, db)
             end
    | POST => let '(r, db') := TodoUpdateView_post parse_date pk post now db in
              (Response r, db')
    end
  | Some (url_delete, Some pk) =>
    match m with
    | GET => match get_object pk db with
             | Some obj => (ConfirmDelete obj, db)
             | None => (Response Http404, db)
             end
    | POST => let '(r, db') := TodoDeleteView_post pk db in (Response r, db')
    end
  | Some (url_toggle_resolved, Some pk) =>
    let '(r, db') := toggle_resolved pk db in (Response r, db')
  | _ => (NoRoute, db)
  end.

(** Toggle requests handled one after the other. *)
Definition toggle_all (pks : list Z) (db : table) : table :=
  foldl (λ d pk, (toggle_resolved pk d).2) db pks.

(** How many of the requests toggle the key [k]. *)
Definition occurrences (k : Z) (pks : list Z) : nat :=
  length (filter (λ pk, pk = k) pks).

(** ** Examples: the views on small tables *)

Definition milk : Todo := mkTodo "Buy milk" "desc" None false 10 10.
Definition bread : Todo := mkTodo "Buy bread" "" (Some (Date 2025 3 1)) true 20 25.
Definition two_rows : table := <[2 := bread]> (<[1 := milk]> ∅).

Definition post_of (l : list (string * string)) : querydict := list_to_map l.

Example parse_iso_ok : parse_iso_date "2025-02-28" = Some (Date 2025 2 28).
Proof. reflexivity. Qed.
Example parse_iso_bad_day : parse_iso_date "2025-02-29" = None.
Proof. reflexivity. Qed.
Example parse_iso_not_a_date : parse_iso_date "not-a-date" = None.
Proof. reflexivity. Qed.
Example strip_spaces : strip "  a b  " = "a b".
Proof. reflexivity. Qed.

Example toggle_on_milk :
  (toggle_resolved 1 two_rows).2 !! 1%Z
  = Some (mkTodo "Buy milk" "desc" None true 10 10).
Proof. vm_compute. reflexivity. Qed.

Example listing_two_rows :
  (objects_all two_rows).*1 = [2; 1]%Z.
Proof. vm_compute. reflexivity. Qed.

Example create_rejects_missing_title :
  TodoCreateView_post parse_iso_date
    (post_of [("title", ""); ("description", "no title"); ("due_date", "");
              ("resolved", "False")]) 30 two_rows
  = (RenderForm [("title", required_message)], two_rows).
Proof. vm_compute. reflexivity. Qed.

Example create_rejects_bad_date :
  TodoCreateView_post parse_iso_date
    (post_of [("title", "Bad date"); ("due_date", "not-a-date")]) 30 two_rows
  = (RenderForm [("due_date", invalid_date_message)], two_rows).
Proof. vm_compute. reflexivity. Qed.

Example create_with_empty_due_date :
  (TodoCreateView_post parse_iso_date
     (post_of [("title", "No date"); ("due_date", "")]) 30 two_rows).2 !! 3%Z
  = Some (mkTodo "No date" "" None false 30 30).
Proof. vm_compute. reflexivity. Qed.

Example create_older_then_newer :
  let db1 := (TodoCreateView_post parse_iso_date
                (post_of [("title", "older")]) 30 ∅).2 in
  let db2 := (TodoCreateView_post parse_iso_date
                (post_of [("title", "newer")]) 31 db1).2 in
  (λ r, title r.2) <$> objects_all db2 = ["newer"; "older"].
Proof. vm_compute. reflexivity. Qed.

Example create_new_item :
  (TodoCreateView_post parse_iso_date
     (post_of [("title", "New item"); ("description", "some desc");
               ("due_date", "2025-01-04"); ("resolved", "False")])
     30 two_rows).2 !! 3%Z
  = Some (mkTodo "New item" "some desc" (Some (Date 2025 1 4)) false 30 30).
Proof. vm_compute. reflexivity. Qed.

Example edit_title_only :
  TodoUpdateView_post parse_iso_date 1
    (post_of [("title", "Buy oat milk"); ("description", "desc");
              ("due_date", "")]) 40 two_rows
  = (Redirect home_url,
     <[1%Z := mkTodo "Buy oat milk" "desc" None false 10 40]> two_rows).
Proof. vm_compute. reflexivity. Qed.

(** * Properties *)

(** ** Attributes and columns *)

Lemma getattr_write_column n m obj row :
  getattr m (write_column n obj row)
  = if decide (n = m) then getattr m obj else getattr m row.
Proof.
  unfold getattr, write_column.
  repeat case_decide; simplify_eq; reflexivity.
Qed.

Lemma getattr_write_columns names m obj row :
  getattr m (foldr (λ n r, write_column n obj r) row names)
  = if decide (m ∈ names) then getattr m obj else getattr m row.
Proof.
  induction names as [|n names IH]; cbn [foldr].
  - case_decide; [set_solver | done].
  - rewrite getattr_write_column, IH.
    repeat case_decide; set_solver.
Qed.

Lemma getattr_pre_save names now obj m :
  m ≠ "updated_at" → getattr m (pre_save names now obj) = getattr m obj.
Proof.
  intros Hm. unfold pre_save. case_bool_decide; [|done].
  unfold getattr. repeat case_decide; simplify_eq; reflexivity.
Qed.

Lemma updated_at_getattr obj : getattr "updated_at" obj = Some (VTime (updated_at obj)).
Proof. reflexivity. Qed.

Lemma changed_data_form_field form n : n ∈ changed_data form → n ∈ form_fields.
Proof. unfold changed_data. rewrite list_elem_of_filter. tauto. Qed.

Lemma form_field_model_field n : n ∈ form_fields → n ∈ model_fields.
Proof. unfold form_fields, model_fields. set_solver. Qed.

Lemma form_field_not_updated_at n : n ∈ form_fields → n ≠ "updated_at".
Proof. unfold form_fields. intros Hn ->. set_solver. Qed.

(** ** Toggling *)

Lemma update_resolved_twice row : update_resolved (update_resolved row) = row.
Proof. destruct row as [? ? ? [] ? ?]; reflexivity. Qed.

(** C1: on every stored record, one toggle negates [resolved] and a second
    toggle in sequence returns it to its original value (false, then true,
    then false again). *)
Theorem toggle_resolved_twice (pk : Z) (db : table) (row : Todo) :
  db !! pk = Some row →
  let db1 := (toggle_resolved pk db).2 in
  let db2 := (toggle_resolved pk db1).2 in
  resolved <$> db1 !! pk = Some (negb (resolved row))
  ∧ resolved <$> db2 !! pk = Some (resolved row)
  ∧ db2 = db.
Proof.
  intros Hrow. simpl. unfold filter_pk_update. split_and!.
  - rewrite lookup_alter_eq, Hrow. simpl. by destruct (resolved row).
  - rewrite !lookup_alter_eq, Hrow. simpl. by destruct (resolved row).
  - apply map_eq. intros k. destruct (decide (k = pk)) as [->|Hne].
    + rewrite !lookup_alter_eq, Hrow. simpl. by rewrite update_resolved_twice.
    + by rewrite !lookup_alter_ne.
Qed.

Lemma toggle_resolved_twice_witness :
  let db1 := (toggle_resolved 1 two_rows).2 in
  let db2 := (toggle_resolved 1 db1).2 in
  resolved <$> db1 !! 1%Z = Some true
  ∧ resolved <$> db2 !! 1%Z = Some false
  ∧ db2 = two_rows.
Proof. apply (toggle_resolved_twice 1 two_rows milk). reflexivity. Defined.

(** C2: the toggle view answers every request with the redirect to the
    listing; for a key that is not in the table the answer is that
    redirect (302) and not a 404, while the delete view answers 404 for
    the same key. *)
Theorem toggle_resolved_missing_pk :
  (∀ pk db, (toggle_resolved pk db).1 = Redirect home_url)
  ∧ two_rows !! 7%Z = None
  ∧ toggle_resolved 7 two_rows = (Redirect home_url, two_rows)
  ∧ status_code (toggle_resolved 7 two_rows).1 = 302%Z
  ∧ TodoDeleteView_post 7 two_rows = (Http404, two_rows).
Proof. split; [done|]. vm_compute. done. Qed.

(** C8: a toggle of a stored record leaves its [title], [description],
    [due_date] and [created_at] as they were, and every other row of the
    table as it was. *)
Theorem toggle_resolved_frame (pk : Z) (db : table) (row : Todo) :
  db !! pk = Some row →
  let db' := (toggle_resolved pk db).2 in
  (∃ row', db' !! pk = Some row'
     ∧ title row' = title row
     ∧ description row' = description row
     ∧ due_date row' = due_date row
     ∧ created_at row' = created_at row)
  ∧ (∀ k, k ≠ pk → db' !! k = db !! k)
  ∧ dom db' = dom db.
Proof.
  intros Hrow. simpl. unfold filter_pk_update. split_and!.
  - exists (update_resolved row). rewrite lookup_alter_eq, Hrow. done.
  - intros k Hk. by rewrite lookup_alter_ne.
  - apply dom_alter_L.
Qed.

Lemma toggle_resolved_frame_witness :
  let db' := (toggle_resolved 2 two_rows).2 in
  (∃ row', db' !! 2%Z = Some row'
     ∧ title row' = "Buy bread"
     ∧ description row' = ""
     ∧ due_date row' = Some (Date 2025 3 1)
     ∧ created_at row' = 20%Z)
  ∧ (∀ k, k ≠ 2%Z → db' !! k = two_rows !! k)
  ∧ dom db' = dom two_rows.
Proof. apply (toggle_resolved_frame 2 two_rows bread). reflexivity. Defined.

(** C9: a toggle does not refresh [updated_at]: the timestamp of the
    toggled row after the statement is the one it had before, whatever the
    clock reads. *)
Theorem toggle_resolved_keeps_updated_at (pk : Z) (db : table) :
  updated_at <$> (toggle_resolved pk db).2 !! pk = updated_at <$> db !! pk.
Proof.
  simpl. unfold filter_pk_update. rewrite lookup_alter_eq.
  by destruct (db !! pk).
Qed.

(** ** Saving with update_fields *)

Lemma save_update_fields_row names now pk obj db row :
  names ≠ [] →
  Forall (λ n, n ∈ model_fields) names →
  db !! pk = Some row →
  save_update_fields names now pk obj db
  = inr (<[pk := foldr (λ n r, write_column n (pre_save names now obj) r)
                       row names]> db).
Proof.
  intros Hne Hall Hrow. unfold save_update_fields.
  destruct names as [|n names]; [done|].
  rewrite bool_decide_eq_true_2 by done. by rewrite Hrow.
Qed.

Lemma update_fields_of_changed form :
  changed_data form ≠ [] →
  update_fields_of form = Some (changed_data form ++ ["updated_at"])%list.
Proof.
  intros Hne. unfold update_fields_of.
  destruct (changed_data form) as [|n l] eqn:Hch; [done|].
  rewrite bool_decide_eq_false_2; [done|].
  rewrite <- Hch. intros Hin%changed_data_form_field.
  by apply form_field_not_updated_at in Hin.
Qed.

Lemma update_fields_of_unchanged form :
  changed_data form = [] → update_fields_of form = None.
Proof. intros Hch. unfold update_fields_of. by rewrite Hch. Qed.

(** What [form_valid] does to the row it saves, whatever the row holds at
    the time of the UPDATE. *)
Lemma form_valid_row form pk now db row :
  db !! pk = Some row →
  ∃ row',
    form_valid form pk now db = (Redirect home_url, <[pk := row']> db)
    ∧ (∀ n, n ∈ changed_data form →
            getattr n row' = getattr n (save_no_commit form))
    ∧ (∀ n, n ∉ changed_data form → n ≠ "updated_at" →
            getattr n row' = getattr n row)
    ∧ (changed_data form ≠ [] → updated_at row' = now)
    ∧ (changed_data form = [] → row' = row).
Proof.
  intros Hrow. unfold form_valid.
  destruct (decide (changed_data form = [])) as [Hch|Hch].
  - exists row. rewrite update_fields_of_unchanged by done.
    rewrite insert_id by done. rewrite Hch. split_and!; try done.
    intros n Hn. by apply elem_of_nil in Hn.
  - rewrite update_fields_of_changed by done.
    set (names := (changed_data form ++ ["updated_at"])%list).
    assert (Hnames : ∀ n, n ∈ names ↔ n ∈ changed_data form ∨ n = "updated_at").
    { intros n. unfold names. rewrite elem_of_app, list_elem_of_singleton. done. }
    erewrite save_update_fields_row; [| |  |exact Hrow].
    + eexists. split; [reflexivity|]. split_and!.
      * intros n Hn. rewrite getattr_write_columns.
        rewrite decide_True by (apply Hnames; by left).
        apply getattr_pre_save, form_field_not_updated_at.
        by eapply changed_data_form_field.
      * intros n Hn Hup. rewrite getattr_write_columns.
        rewrite decide_False; [done|]. rewrite Hnames. tauto.
      * intros _.
        pose proof (getattr_write_columns names "updated_at"
                      (pre_save names now (save_no_commit form)) row) as Hg.
        rewrite decide_True in Hg by (apply Hnames; by right).
        rewrite !updated_at_getattr in Hg. simplify_eq. rewrite Hg.
        unfold pre_save. rewrite bool_decide_eq_true_2; [done|].
        apply Hnames. by right.
      * done.
    + unfold names. destruct (changed_data form); done.
    + apply Forall_forall. intros n [Hn| ->]%Hnames.
      * by apply form_field_model_field, (changed_data_form_field form).
      * unfold model_fields. set_solver.
Qed.

Lemma changed_data_spec form n :
  n ∈ changed_data form
  ↔ n ∈ form_fields ∧ getattr n (save_no_commit form) ≠ getattr n (instance form).
Proof. unfold changed_data. rewrite list_elem_of_filter. tauto. Qed.

(** ** Editing *)

Lemma TodoUpdateView_post_valid parse_date pk post now db row c :
  db !! pk = Some row →
  full_clean parse_date post = inr c →
  TodoUpdateView_post parse_date pk post now db
  = form_valid (mkForm row c) pk now db.
Proof.
  intros Hrow Hc. unfold TodoUpdateView_post, bind_form, get_object.
  by rewrite Hrow, Hc.
Qed.

(** C3 as stated fails for a valid submission that changes nothing: the
    view then issues no write, so [updated_at] is not among the written
    fields and keeps its stored value. *)
Lemma edit_write_set_counterexample :
  let post := post_of [("title", "Buy milk"); ("description", "desc");
                       ("due_date", "")] in
  let c := mkCleaned "Buy milk" "desc" None false in
  two_rows !! 1%Z = Some milk
  ∧ full_clean parse_iso_date post = inr c
  ∧ update_fields_of (mkForm milk c)
    ≠ Some (changed_data (mkForm milk c) ++ ["updated_at"])%list
  ∧ updated_at <$> (TodoUpdateView_post parse_iso_date 1 post 40 two_rows).2 !! 1%Z
    = Some 10%Z.
Proof. vm_compute. split_and!; done. Qed.

(** The submitted values, read off the cleaned data. *)
Lemma getattr_save_no_commit_cleaned form n :
  n ∈ form_fields →
  getattr n (save_no_commit form) = cleaned_attr n (cleaned form).
Proof.
  unfold form_fields. rewrite !elem_of_cons, elem_of_nil.
  intros [->|[->|[->|[->|[]]]]]; reflexivity.
Qed.

Lemma changed_data_changed_from obj c :
  changed_data (mkForm obj c) = changed_from c obj.
Proof. reflexivity. Qed.

Lemma changed_from_form_field c obj n : n ∈ changed_from c obj → n ∈ form_fields.
Proof. unfold changed_from. rewrite list_elem_of_filter. tauto. Qed.

(** [form_valid] on the form bound to [obj] and to the cleaned submission
    [c], when the table holds [cur] at the key at the time of the save. *)
Lemma form_valid_cleaned obj c pk now db cur :
  db !! pk = Some cur →
  ∃ row',
    form_valid (mkForm obj c) pk now db = (Redirect home_url, <[pk := row']> db)
    ∧ (∀ n, n ∈ changed_from c obj → getattr n row' = cleaned_attr n c)
    ∧ (∀ n, n ∉ changed_from c obj → n ≠ "updated_at" →
            getattr n row' = getattr n cur)
    ∧ (changed_from c obj ≠ [] → updated_at row' = now)
    ∧ (changed_from c obj = [] → row' = cur).
Proof.
  intros Hcur.
  destruct (form_valid_row (mkForm obj c) pk now db cur Hcur)
    as (row' & Hv & Hin & Hout & Hup & Hsame).
  rewrite changed_data_changed_from in Hin, Hout, Hup, Hsame.
  exists row'. split_and!; [done| |done..].
  intros n Hn. rewrite (Hin n Hn).
  by apply (getattr_save_no_commit_cleaned (mkForm obj c)), (changed_from_form_field c obj).
Qed.

(** C3 (amended): for every stored record and every valid edit
    submission, the view runs [form_valid] on the form bound to the
    stored record; the changed-field set is exactly the form fields whose
    submitted value differs from the stored one.  When that set is empty
    there is no write: [update_fields] is absent and the table is
    returned as it is, whatever it holds.  When it is not empty,
    [update_fields] is exactly that set plus [updated_at], the view
    saves with that list, and whatever row the table holds at the key
    when the save runs, the save gives
    the fields of that set the submitted values and [updated_at] the
    clock reading, and leaves every other field of that row, and every
    other row, as stored.  In particular, for the view run on the stored
    record, each field outside the set (other than [updated_at]) keeps
    its stored value. *)
Theorem edit_writes_changed_fields (parse_date : string → option date)
    (pk : Z) (post : querydict) (now : Z) (db : table) (row : Todo)
    (c : cleaned_data) :
  db !! pk = Some row →
  full_clean parse_date post = inr c →
  let form := mkForm row c in
  let changed := changed_from c row in
  TodoUpdateView_post parse_date pk post now db = form_valid form pk now db
  ∧ changed_data form = changed
  ∧ (∀ n, n ∈ changed ↔ n ∈ form_fields ∧ cleaned_attr n c ≠ getattr n row)
  ∧ (changed = [] →
     update_fields_of form = None
     ∧ ∀ db_now, form_valid form pk now db_now = (Redirect home_url, db_now))
  ∧ (changed ≠ [] →
     update_fields_of form = Some (changed ++ ["updated_at"])%list
     ∧ (∀ db_now,
          form_valid form pk now db_now
          = match save_update_fields (changed ++ ["updated_at"])%list now pk
                                     (save_no_commit form) db_now with
            | inr db' => (Redirect home_url, db')
            | inl e => (Http500 e, db_now)
            end)
     ∧ ∀ db_now cur, db_now !! pk = Some cur →
         ∃ row',
           form_valid form pk now db_now
           = (Redirect home_url, <[pk := row']> db_now)
           ∧ (∀ n, n ∈ changed → getattr n row' = cleaned_attr n c)
           ∧ updated_at row' = now
           ∧ (∀ n, n ∉ changed → n ≠ "updated_at" →
                   getattr n row' = getattr n cur))
  ∧ ∃ row',
      TodoUpdateView_post parse_date pk post now db
      = (Redirect home_url, <[pk := row']> db)
      ∧ (∀ n, n ∈ changed → getattr n row' = cleaned_attr n c)
      ∧ (changed ≠ [] → updated_at row' = now)
      ∧ (changed = [] → row' = row)
      ∧ (∀ n, n ∉ changed → n ≠ "updated_at" →
              getattr n row' = getattr n row).
Proof.
  intros Hrow Hc form changed.
  assert (Hpost : TodoUpdateView_post parse_date pk post now db
                  = form_valid form pk now db)
    by by apply TodoUpdateView_post_valid.
  split_and!.
  - done.
  - apply changed_data_changed_from.
  - intros n. unfold changed, changed_from. rewrite list_elem_of_filter. tauto.
  - intros Hch. split.
    + by apply update_fields_of_unchanged.
    + intros db_now. unfold form_valid.
      by rewrite update_fields_of_unchanged.
  - intros Hch. split_and!.
    + by apply update_fields_of_changed.
    + intros db_now. unfold form_valid.
      by rewrite update_fields_of_changed.
    + intros db_now cur Hcur.
      destruct (form_valid_cleaned row c pk now db_now cur Hcur)
        as (row' & Hv & Hin & Hout & Hup & _).
      exists row'. split_and!; [done..|by apply Hup|done].
  - destruct (form_valid_cleaned row c pk now db row Hrow)
      as (row' & Hv & Hin & Hout & Hup & Hsame).
    exists row'. rewrite Hpost. done.
Qed.

Lemma edit_writes_changed_fields_witness :
  let post := post_of [("title", "Buy oat milk"); ("description", "desc");
                       ("due_date", "")] in
  let c := mkCleaned "Buy oat milk" "desc" None false in
  let form := mkForm milk c in
  let changed := changed_from c milk in
  TodoUpdateView_post parse_iso_date 1 post 40 two_rows
  = form_valid form 1 40 two_rows
  ∧ changed_data form = changed
  ∧ (∀ n, n ∈ changed ↔ n ∈ form_fields ∧ cleaned_attr n c ≠ getattr n milk)
  ∧ (changed = [] →
     update_fields_of form = None
     ∧ ∀ db_now, form_valid form 1 40 db_now = (Redirect home_url, db_now))
  ∧ (changed ≠ [] →
     update_fields_of form = Some (changed ++ ["updated_at"])%list
     ∧ (∀ db_now,
          form_valid form 1 40 db_now
          = match save_update_fields (changed ++ ["updated_at"])%list 40 1
                                     (save_no_commit form) db_now with
            | inr db' => (Redirect home_url, db')
            | inl e => (Http500 e, db_now)
            end)
     ∧ ∀ db_now cur, db_now !! 1%Z = Some cur →
         ∃ row',
           form_valid form 1 40 db_now
           = (Redirect home_url, <[1%Z := row']> db_now)
           ∧ (∀ n, n ∈ changed → getattr n row' = cleaned_attr n c)
           ∧ updated_at row' = 40%Z
           ∧ (∀ n, n ∉ changed → n ≠ "updated_at" →
                   getattr n row' = getattr n cur))
  ∧ ∃ row',
      TodoUpdateView_post parse_iso_date 1 post 40 two_rows
      = (Redirect home_url, <[1%Z := row']> two_rows)
      ∧ (∀ n, n ∈ changed → getattr n row' = cleaned_attr n c)
      ∧ (changed ≠ [] → updated_at row' = 40%Z)
      ∧ (changed = [] → row' = milk)
      ∧ (∀ n, n ∉ changed → n ≠ "updated_at" →
              getattr n row' = getattr n milk).
Proof.
  apply (edit_writes_changed_fields parse_iso_date 1
           (post_of [("title", "Buy oat milk"); ("description", "desc");
                     ("due_date", "")]) 40 two_rows milk
           (mkCleaned "Buy oat milk" "desc" None false)).
  - reflexivity.
  - reflexivity.
Defined.

(** The save of an edit whose form was bound before another request
    changed the description: only the title is written. *)
Example edit_saves_title_only :
  let form := mkForm milk (mkCleaned "Buy oat milk" "desc" None false) in
  let db_now := <[1%Z := mkTodo "Buy milk" "organic" None true 10 35]> two_rows in
  changed_from (cleaned form) milk = ["title"]
  ∧ form_valid form 1 40 db_now
    = (Redirect home_url,
       <[1%Z := mkTodo "Buy oat milk" "organic" None true 10 40]> db_now).
Proof. vm_compute. done. Qed.

(** C10: for every stored record, a valid edit submission in which no form
    field differs from the stored value issues no write, leaves the table
    (and so [updated_at]) as it was, and still redirects to the listing. *)
Theorem edit_without_changes (parse_date : string → option date)
    (pk : Z) (post : querydict) (now : Z) (db : table) (row : Todo)
    (c : cleaned_data) :
  db !! pk = Some row →
  full_clean parse_date post = inr c →
  Forall (λ n, getattr n (save_no_commit (mkForm row c)) = getattr n row)
         form_fields →
  update_fields_of (mkForm row c) = None
  ∧ TodoUpdateView_post parse_date pk post now db = (Redirect home_url, db)
  ∧ updated_at <$> (TodoUpdateView_post parse_date pk post now db).2 !! pk
    = Some (updated_at row).
Proof.
  intros Hrow Hc Hsame.
  assert (Hch : changed_data (mkForm row c) = []).
  { apply elem_of_nil_inv. intros n [Hn Hdiff]%changed_data_spec.
    rewrite Forall_forall in Hsame. by apply Hdiff, Hsame. }
  assert (Hpost : TodoUpdateView_post parse_date pk post now db
                  = (Redirect home_url, db)).
  { rewrite (TodoUpdateView_post_valid _ _ _ _ _ row c) by done.
    unfold form_valid. by rewrite update_fields_of_unchanged. }
  split_and!.
  - by apply update_fields_of_unchanged.
  - done.
  - rewrite Hpost. simpl. by rewrite Hrow.
Qed.

Lemma edit_without_changes_witness :
  let post := post_of [("title", "Buy bread"); ("due_date", "2025-03-01");
                       ("resolved", "on")] in
  let c := mkCleaned "Buy bread" "" (Some (Date 2025 3 1)) true in
  update_fields_of (mkForm bread c) = None
  ∧ TodoUpdateView_post parse_iso_date 2 post 50 two_rows
    = (Redirect home_url, two_rows)
  ∧ updated_at <$> (TodoUpdateView_post parse_iso_date 2 post 50 two_rows).2 !! 2%Z
    = Some 25%Z.
Proof.
  apply (edit_without_changes parse_iso_date 2
           (post_of [("title", "Buy bread"); ("due_date", "2025-03-01");
                     ("resolved", "on")]) 50 two_rows bread
           (mkCleaned "Buy bread" "" (Some (Date 2025 3 1)) true)).
  - reflexivity.
  - reflexivity.
  - apply (bool_decide_unpack _). vm_compute. exact I.
Defined.

(** ** Listing *)

Global Instance newest_first_trans : Transitive newest_first.
Proof. unfold newest_first. intros a b c. lia. Qed.

Global Instance newest_first_total : Total newest_first.
Proof. unfold newest_first. intros a b. lia. Qed.

Lemma objects_all_perm db : objects_all db ≡ₚ map_to_list db.
Proof. apply merge_sort_Permutation. Qed.

Lemma objects_all_sorted db : StronglySorted newest_first (objects_all db).
Proof. apply StronglySorted_merge_sort; apply _. Qed.

Lemma elem_of_objects_all db pk row :
  (pk, row) ∈ objects_all db ↔ db !! pk = Some row.
Proof. rewrite objects_all_perm. apply elem_of_map_to_list. Qed.

(** In a list sorted newest first, a strictly newer row comes before an
    older one. *)
Lemma sorted_newer_before_older (l : list (Z * Todo)) (i j : nat) a b :
  StronglySorted newest_first l →
  l !! i = Some a → l !! j = Some b →
  (created_at b.2 < created_at a.2)%Z →
  (i < j)%nat.
Proof.
  intros Hs. revert i j. induction Hs as [|x l Hs IH Hx]; intros i j Hi Hj Hlt.
  - by rewrite lookup_nil in Hi.
  - destruct i as [|i], j as [|j]; simpl in *; simplify_eq.
    + lia.
    + lia.
    + exfalso. rewrite Forall_forall in Hx.
      assert (newest_first b a) as Hba.
      { apply Hx. by eapply list_elem_of_lookup_2. }
      unfold newest_first in Hba. lia.
    + apply (IH i j) in Hi; [lia | done | done].
Qed.

Lemma next_pk_above db pk row : db !! pk = Some row → (pk < next_pk db)%Z.
Proof.
  intros Hrow. unfold next_pk.
  assert (Hin : pk ∈ (map_to_list db).*1).
  { apply list_elem_of_fmap. exists (pk, row). split; [done|].
    by apply elem_of_map_to_list. }
  revert Hin. generalize ((map_to_list db).*1). intros l.
  induction l as [|k l IH]; intros Hin.
  - by apply elem_of_nil in Hin.
  - apply elem_of_cons in Hin as [->|Hin]; simpl; [lia|].
    apply IH in Hin. lia.
Qed.

Lemma next_pk_fresh db : db !! next_pk db = None.
Proof.
  destruct (db !! next_pk db) as [row|] eqn:Hrow; [|done].
  apply next_pk_above in Hrow. lia.
Qed.

(** A row that is strictly newer than every other row heads the listing. *)
Lemma objects_all_head db pk row :
  db !! pk = Some row →
  (∀ k r, db !! k = Some r → k ≠ pk → (created_at r < created_at row)%Z) →
  head (objects_all db) = Some (pk, row).
Proof.
  intros Hrow Hnew.
  pose proof (objects_all_sorted db) as Hs.
  apply elem_of_objects_all in Hrow as Hin.
  destruct (objects_all db) as [|[k r] l] eqn:Hl.
  - by apply elem_of_nil in Hin.
  - simpl. apply elem_of_cons in Hin as [Heq|Hin]; [by rewrite Heq|].
    apply StronglySorted_cons in Hs as [Hhd _].
    rewrite Forall_forall in Hhd. apply Hhd in Hin.
    unfold newest_first in Hin. simpl in Hin.
    assert (Hk : db !! k = Some r).
    { apply elem_of_objects_all. rewrite Hl. by left. }
    destruct (decide (k = pk)) as [->|Hne]; [by simplify_eq|].
    apply Hnew in Hk; [lia | done].
Qed.

(** ** Creating *)

(** C4: a create request whose title is missing, empty or empty after
    trimming writes nothing (the table, and so the record count, is
    unchanged) and gets the form rendered again (200, no redirect) with
    the required-field error on [title]. *)
Theorem create_rejects_empty_title (parse_date : string → option date)
    (post : querydict) (now : Z) (db : table) :
  strip (default "" (post !! "title")) = "" →
  ∃ errors,
    TodoCreateView_post parse_date post now db = (RenderForm errors, db)
    ∧ ("title", required_message) ∈ errors
    ∧ size (TodoCreateView_post parse_date post now db).2 = size db
    ∧ status_code (TodoCreateView_post parse_date post now db).1 = 200%Z.
Proof.
  intros Htitle. unfold TodoCreateView_post, full_clean, clean_title.
  rewrite Htitle. rewrite decide_True by done.
  destruct (clean_due_date parse_date post) as [msg|d];
    (eexists; split; [reflexivity|]; split_and!; [|done|done]);
    simpl; apply elem_of_cons; by left.
Qed.

Lemma create_rejects_empty_title_witness :
  let post := post_of [("title", "   "); ("description", "no title");
                       ("due_date", ""); ("resolved", "False")] in
  ∃ errors,
    TodoCreateView_post parse_iso_date post 30 two_rows
    = (RenderForm errors, two_rows)
    ∧ ("title", required_message) ∈ errors
    ∧ size (TodoCreateView_post parse_iso_date post 30 two_rows).2
      = size two_rows
    ∧ status_code (TodoCreateView_post parse_iso_date post 30 two_rows).1
      = 200%Z.
Proof.
  apply (create_rejects_empty_title parse_iso_date
           (post_of [("title", "   "); ("description", "no title");
                     ("due_date", ""); ("resolved", "False")]) 30 two_rows).
  reflexivity.
Defined.

(** C5: a create request whose [due_date] is non-empty and does not parse
    as a date writes nothing and gets the form rendered again with the
    invalid-date error on [due_date]; an empty [due_date] cleans to "not
    provided" and never puts an error on [due_date]. *)
Theorem create_rejects_invalid_due_date (parse_date : string → option date)
    (post : querydict) (now : Z) (db : table) (v : string) :
  post !! "due_date" = Some v →
  (v ≠ "" → parse_date v = None →
   ∃ errors,
     TodoCreateView_post parse_date post now db = (RenderForm errors, db)
     ∧ ("due_date", invalid_date_message) ∈ errors
     ∧ size (TodoCreateView_post parse_date post now db).2 = size db)
  ∧ (v = "" →
     clean_due_date parse_date post = inr None
     ∧ ∀ errors msg,
         (TodoCreateView_post parse_date post now db).1 = RenderForm errors →
         ("due_date", msg) ∉ errors).
Proof.
  intros Hv. split.
  - intros Hne Hparse. unfold TodoCreateView_post, full_clean, clean_due_date.
    rewrite Hv, decide_False, Hparse by done.
    destruct (clean_title post) as [msg|t];
      (eexists; split; [reflexivity|]; split; [|done]); simpl.
    + apply elem_of_cons. right. apply elem_of_cons. by left.
    + apply elem_of_cons. by left.
  - intros ->.
    assert (Hd : clean_due_date parse_date post = inr None).
    { unfold clean_due_date. by rewrite Hv, decide_True. }
    split; [done|]. intros errors msg.
    unfold TodoCreateView_post, full_clean. rewrite Hd.
    destruct (clean_title post) as [m|t]; simpl; [|done].
    intros [= <-] Hin. apply elem_of_cons in Hin as [Hin|Hin]; [done|].
    by apply elem_of_nil in Hin.
Qed.

Lemma create_rejects_invalid_due_date_witness :
  let post := post_of [("title", "Bad date"); ("due_date", "not-a-date")] in
  ∃ errors,
    TodoCreateView_post parse_iso_date post 30 two_rows
    = (RenderForm errors, two_rows)
    ∧ ("due_date", invalid_date_message) ∈ errors
    ∧ size (TodoCreateView_post parse_iso_date post 30 two_rows).2
      = size two_rows.
Proof.
  apply (create_rejects_invalid_due_date parse_iso_date
           (post_of [("title", "Bad date"); ("due_date", "not-a-date")])
           30 two_rows "not-a-date").
  - reflexivity.
  - discriminate.
  - reflexivity.
Defined.

(** C6: for every valid create at a clock reading later than the creation
    of every stored record, the new record has [resolved] as submitted
    (false unless set), is stamped with the clock reading, and heads the
    listing; and the listing puts any record before every record with a
    strictly older [created_at]. *)
Theorem create_valid_heads_listing (parse_date : string → option date)
    (post : querydict) (now : Z) (db : table) (c : cleaned_data) :
  full_clean parse_date post = inr c →
  (∀ pk row, db !! pk = Some row → (created_at row < now)%Z) →
  ∃ pk row,
    TodoCreateView_post parse_date post now db
    = (Redirect home_url, <[pk := row]> db)
    ∧ db !! pk = None
    ∧ created_at row = now
    ∧ resolved row = clean_resolved post
    ∧ (post !! "resolved" = None → resolved row = false)
    ∧ head (objects_all (<[pk := row]> db)) = Some (pk, row)
    ∧ (∀ i j a b,
         objects_all (<[pk := row]> db) !! i = Some a →
         objects_all (<[pk := row]> db) !! j = Some b →
         (created_at b.2 < created_at a.2)%Z → (i < j)%nat).
Proof.
  intros Hc Hclock. unfold TodoCreateView_post. rewrite Hc.
  unfold save_new. eexists _, _. split; [reflexivity|].
  assert (Hres : c_resolved c = clean_resolved post).
  { unfold full_clean in Hc.
    destruct (clean_title post), (clean_due_date parse_date post);
      by simplify_eq. }
  split_and!; simpl.
  - apply next_pk_fresh.
  - done.
  - done.
  - intros Hnone. rewrite Hres. unfold clean_resolved. by rewrite Hnone.
  - apply objects_all_head; [by rewrite lookup_insert_eq|].
    intros k r Hk Hne. rewrite lookup_insert_ne in Hk by done.
    simpl. by eapply Hclock.
  - intros i j a b. apply sorted_newer_before_older, objects_all_sorted.
Qed.

Lemma create_valid_heads_listing_witness :
  let post := post_of [("title", "New item"); ("description", "some desc");
                       ("due_date", "2025-01-04"); ("resolved", "False")] in
  ∃ pk row,
    TodoCreateView_post parse_iso_date post 30 two_rows
    = (Redirect home_url, <[pk := row]> two_rows)
    ∧ two_rows !! pk = None
    ∧ created_at row = 30%Z
    ∧ resolved row = clean_resolved post
    ∧ (post !! "resolved" = None → resolved row = false)
    ∧ head (objects_all (<[pk := row]> two_rows)) = Some (pk, row)
    ∧ (∀ i j a b,
         objects_all (<[pk := row]> two_rows) !! i = Some a →
         objects_all (<[pk := row]> two_rows) !! j = Some b →
         (created_at b.2 < created_at a.2)%Z → (i < j)%nat).
Proof.
  apply (create_valid_heads_listing parse_iso_date
           (post_of [("title", "New item"); ("description", "some desc");
                     ("due_date", "2025-01-04"); ("resolved", "False")])
           30 two_rows
           (mkCleaned "New item" "some desc" (Some (Date 2025 1 4)) false)).
  - reflexivity.
  - apply (bool_decide_unpack
             (map_Forall (λ _ row, (created_at row < 30)%Z) two_rows)).
    vm_compute. exact I.
Defined.

(** ** Two edits of one record handled at the same time *)

Lemma schedules_of_two_edits (schedule : list worker) :
  schedule ≡ₚ [WA; WA; WB; WB] →
  schedule ∈ [[WA; WA; WB; WB]; [WA; WB; WA; WB]; [WA; WB; WB; WA];
              [WB; WA; WA; WB]; [WB; WA; WB; WA]; [WB; WB; WA; WA]].
Proof.
  intros Hp. pose proof (Permutation_length Hp) as Hlen.
  destruct schedule as [|w1 [|w2 [|w3 [|w4 [|w5 l]]]]]; try discriminate Hlen.
  destruct w1, w2, w3, w4;
    first [ by (apply (bool_decide_unpack _); vm_compute)
          | exfalso; revert Hp; by (apply (bool_decide_unpack (¬ _)); vm_compute) ].
Qed.

Section two_edits.
Variable parse_date : string → option date.

Lemma edit_step_start pk req db row c :
  db !! pk = Some row →
  full_clean parse_date (e_post req) = inr c →
  edit_step parse_date pk req edit_start db
  = (mkState (Some (mkForm row c)) None, db).
Proof.
  intros Hrow Hc. unfold edit_step, bind_form, get_object. simpl.
  by rewrite Hrow, Hc.
Qed.

Lemma edit_step_save pk req obj c db cur :
  db !! pk = Some cur →
  ∃ row',
    edit_step parse_date pk req (mkState (Some (mkForm obj c)) None) db
    = (mkState (Some (mkForm obj c)) (Some (Redirect home_url)),
       <[pk := row']> db)
    ∧ (∀ n, n ∈ changed_from c obj → getattr n row' = cleaned_attr n c)
    ∧ (∀ n, n ∉ changed_from c obj → n ≠ "updated_at" →
            getattr n row' = getattr n cur).
Proof.
  intros Hcur.
  destruct (form_valid_cleaned obj c pk (e_now req) db cur Hcur)
    as (row' & Hv & Hin & Hout & _).
  exists row'. unfold edit_step. simpl. by rewrite Hv.
Qed.

Lemma edit_step_bound_valid pk req st db :
  bound_valid parse_date req st →
  bound_valid parse_date req (edit_step parse_date pk req st db).1.
Proof.
  intros Hst. unfold edit_step.
  destruct (answer st) as [r|]; [done|].
  destruct (bound st) as [form|] eqn:Hb.
  - destruct (form_valid form pk (e_now req) db) as [r db'].
    intros f [= <-]. by apply Hst.
  - unfold bind_form.
    destruct (get_object pk db) as [obj|]; [|by intros f].
    destruct (full_clean parse_date (e_post req)) as [errors|c] eqn:Hc;
      [by intros f|].
    by intros f [= <-].
Qed.

(** The invariant of the schedule: by induction on the steps taken. *)
Lemma steps_bound_valid pk ra rb schedule sys0 :
  bound_valid parse_date ra (sys_a sys0) →
  bound_valid parse_date rb (sys_b sys0) →
  let sys := foldl (sys_step parse_date pk ra rb) sys0 schedule in
  bound_valid parse_date ra (sys_a sys) ∧ bound_valid parse_date rb (sys_b sys).
Proof.
  revert sys0. induction schedule as [|w schedule IH]; intros sys0 Ha Hb.
  - done.
  - cbn [foldl]. destruct w; unfold sys_step.
    + pose proof (edit_step_bound_valid pk ra _ (sys_db sys0) Ha) as Ha'.
      destruct (edit_step parse_date pk ra (sys_a sys0) (sys_db sys0)).
      by apply IH.
    + pose proof (edit_step_bound_valid pk rb _ (sys_db sys0) Hb) as Hb'.
      destruct (edit_step parse_date pk rb (sys_b sys0) (sys_db sys0)).
      by apply IH.
Qed.

Lemma run_bound_valid pk ra rb schedule db :
  let sys := run parse_date pk ra rb schedule db in
  bound_valid parse_date ra (sys_a sys) ∧ bound_valid parse_date rb (sys_b sys).
Proof. apply steps_bound_valid; by intros f. Qed.

Ltac sys_simpl := cbn [foldl sys_step sys_a sys_b sys_db bound answer].

(** The SELECT of a request that has not started, on the current row. *)
Ltac load_step req Hc :=
  match goal with
  | Hrow : ?d !! ?pk = Some ?r
    |- context [edit_step _ ?pk req edit_start ?d] =>
    rewrite (edit_step_start pk req d r _ Hrow Hc); sys_simpl
  end.

(** The UPDATE of a request that holds a bound form, on the current row. *)
Ltac save_step req :=
  match goal with
  | Hrow : ?d !! ?pk = Some ?r
    |- context [edit_step _ ?pk req (mkState (Some (mkForm ?obj ?c)) None) ?d] =>
    let r' := fresh "r" in
    let Hin := fresh "Hin" in
    let Hout := fresh "Hout" in
    let Hnew := fresh "Hrow" in
    destruct (edit_step_save pk req obj c d r Hrow) as (r' & -> & Hin & Hout);
    assert (Hnew : <[pk := r']> d !! pk = Some r') by apply lookup_insert_eq;
    sys_simpl
  end.

(** The last write decides the fields it names; the others show the
    write before it, or the row as it was stored. *)
Ltac two_writes :=
  match goal with
  | Hin : ∀ n, n ∈ changed_from ?c _ → getattr n ?r = _
    |- getattr _ ?r = cleaned_attr _ ?c => by apply Hin
  | Hout : ∀ n, n ∉ changed_from _ _ → _ → getattr n ?r = getattr n ?r0,
    Hin : ∀ n, n ∈ changed_from ?c _ → getattr n ?r0 = _
    |- getattr _ ?r = cleaned_attr _ ?c =>
    rewrite Hout by eauto; by apply Hin
  | Hout2 : ∀ n, n ∉ changed_from _ _ → _ → getattr n ?r = getattr n ?r0,
    Hout1 : ∀ n, n ∉ changed_from _ _ → _ → getattr n ?r0 = getattr n ?row
    |- getattr _ ?r = getattr _ ?row =>
    rewrite Hout2 by eauto; by apply Hout1
  end.

(** C7: two edits of one stored record, both with a valid submission,
    run their SELECT and their UPDATE in any interleaving.  Each request
    binds its cleaned submission to the record it loaded and both
    redirect.  When the two changed-field sets (the form fields whose
    submitted value differs from the loaded one) are disjoint, the stored
    record afterwards holds the submitted value of every field either
    request changed, and every field neither changed (other than
    [updated_at]) holds what was stored before. *)
Theorem concurrent_edits_keep_both (pk : Z) (ra rb : edit_request)
    (schedule : list worker) (db : table) (row : Todo)
    (ca cb : cleaned_data) :
  db !! pk = Some row →
  schedule ≡ₚ [WA; WA; WB; WB] →
  full_clean parse_date (e_post ra) = inr ca →
  full_clean parse_date (e_post rb) = inr cb →
  let sys := run parse_date pk ra rb schedule db in
  ∃ obj_a obj_b,
    bound (sys_a sys) = Some (mkForm obj_a ca)
    ∧ bound (sys_b sys) = Some (mkForm obj_b cb)
    ∧ answer (sys_a sys) = Some (Redirect home_url)
    ∧ answer (sys_b sys) = Some (Redirect home_url)
    ∧ (Forall (λ n, n ∉ changed_from cb obj_b) (changed_from ca obj_a) →
       ∃ row',
         sys_db sys !! pk = Some row'
         ∧ (∀ n, n ∈ changed_from ca obj_a →
                 getattr n row' = cleaned_attr n ca)
         ∧ (∀ n, n ∈ changed_from cb obj_b →
                 getattr n row' = cleaned_attr n cb)
         ∧ (∀ n, n ∉ changed_from ca obj_a → n ∉ changed_from cb obj_b →
                 n ≠ "updated_at" → getattr n row' = getattr n row)).
Proof.
  intros Hrow Hsched Ha Hb sys. unfold sys. clear sys.
  assert (Hup : ∀ c obj n, n ∈ changed_from c obj → n ≠ "updated_at")
    by (intros c obj n Hn;
        by eapply form_field_not_updated_at, changed_from_form_field).
  apply schedules_of_two_edits in Hsched.
  repeat (apply elem_of_cons in Hsched as [->|Hsched]);
    [| | | | | |by apply elem_of_nil in Hsched];
    unfold run; sys_simpl;
    repeat first [load_step ra Ha | load_step rb Hb
                 | save_step ra | save_step rb];
    eexists _, _; (split_and!; [reflexivity..|]);
    intros Hdisj; rewrite Forall_forall in Hdisj;
    (assert (Hdisj' : ∀ n, n ∈ changed_from cb _ → n ∉ changed_from ca _)
       by (intros n Hn Hn'; by apply (Hdisj n)));
    eexists; (split; [apply lookup_insert_eq|]);
    split_and!; intros n; intros; two_writes.
Qed.
End two_edits.

Lemma concurrent_edits_keep_both_witness :
  let ra := mkEdit (post_of [("title", "Buy oat milk"); ("description", "desc")]) 40 in
  let rb := mkEdit (post_of [("title", "Buy milk"); ("description", "organic")]) 41 in
  let ca := mkCleaned "Buy oat milk" "desc" None false in
  let cb := mkCleaned "Buy milk" "organic" None false in
  let sys := run parse_iso_date 1 ra rb [WA; WB; WA; WB] two_rows in
  ∃ obj_a obj_b,
    bound (sys_a sys) = Some (mkForm obj_a ca)
    ∧ bound (sys_b sys) = Some (mkForm obj_b cb)
    ∧ answer (sys_a sys) = Some (Redirect home_url)
    ∧ answer (sys_b sys) = Some (Redirect home_url)
    ∧ (Forall (λ n, n ∉ changed_from cb obj_b) (changed_from ca obj_a) →
       ∃ row',
         sys_db sys !! 1%Z = Some row'
         ∧ (∀ n, n ∈ changed_from ca obj_a →
                 getattr n row' = cleaned_attr n ca)
         ∧ (∀ n, n ∈ changed_from cb obj_b →
                 getattr n row' = cleaned_attr n cb)
         ∧ (∀ n, n ∉ changed_from ca obj_a → n ∉ changed_from cb obj_b →
                 n ≠ "updated_at" → getattr n row' = getattr n milk)).
Proof.
  apply (concurrent_edits_keep_both parse_iso_date 1
           (mkEdit (post_of [("title", "Buy oat milk"); ("description", "desc")]) 40)
           (mkEdit (post_of [("title", "Buy milk"); ("description", "organic")]) 41)
           [WA; WB; WA; WB] two_rows milk
           (mkCleaned "Buy oat milk" "desc" None false)
           (mkCleaned "Buy milk" "organic" None false)).
  - reflexivity.
  - apply (bool_decide_unpack _). vm_compute. exact I.
  - reflexivity.
  - reflexivity.
Defined.

(** On that schedule both forms are bound to the stored record, their
    changed-field sets are the title and the description, and both
    submitted values are stored. *)
Example concurrent_edits_changed_sets :
  let sys := run parse_iso_date 1
               (mkEdit (post_of [("title", "Buy oat milk"); ("description", "desc")]) 40)
               (mkEdit (post_of [("title", "Buy milk"); ("description", "organic")]) 41)
               [WA; WB; WA; WB] two_rows in
  instance <$> bound (sys_a sys) = Some milk
  ∧ instance <$> bound (sys_b sys) = Some milk
  ∧ changed_from (mkCleaned "Buy oat milk" "desc" None false) milk = ["title"]
  ∧ changed_from (mkCleaned "Buy milk" "organic" None false) milk = ["description"].
Proof. vm_compute. done. Qed.

Example concurrent_edits_final_row :
  sys_db (run parse_iso_date 1
            (mkEdit (post_of [("title", "Buy oat milk"); ("description", "desc")]) 40)
            (mkEdit (post_of [("title", "Buy milk"); ("description", "organic")]) 41)
            [WA; WB; WA; WB] two_rows) !! 1%Z
  = Some (mkTodo "Buy oat milk" "organic" None false 10 41).
Proof. vm_compute. reflexivity. Qed.

(** * Further properties of the views and of the routes *)

(** ** Sequences of toggles *)

Lemma toggle_all_cons pk pks db :
  toggle_all (pk :: pks) db = toggle_all pks (alter update_resolved pk db).
Proof. reflexivity. Qed.

Lemma toggle_all_lookup pks db k :
  toggle_all pks db !! k
  = (λ row, if Nat.even (occurrences k pks) then row else update_resolved row)
      <$> db !! k.
Proof.
  revert db. induction pks as [|pk pks IH]; intros db.
  - simpl. by destruct (db !! k).
  - rewrite toggle_all_cons, IH. unfold occurrences.
    rewrite filter_cons. destruct (decide (pk = k)) as [->|Hne].
    + rewrite lookup_alter_eq. cbn [length]. rewrite Nat.even_succ.
      rewrite <- Nat.negb_even.
      destruct (db !! k) as [row|]; [|done]. simpl.
      destruct (Nat.even _); simpl; [done|].
      by rewrite update_resolved_twice.
    + by rewrite lookup_alter_ne.
Qed.

(** X1: after any sequence of toggle requests, a stored record has
    [resolved] flipped exactly when its key was toggled an odd number of
    times; its other fields and the set of keys of the table are as
    before. *)
Theorem toggle_all_parity (pks : list Z) (db : table) (k : Z) (row : Todo) :
  db !! k = Some row →
  toggle_all pks db !! k
  = Some (mkTodo (title row) (description row) (due_date row)
                 (xorb (resolved row) (Nat.odd (occurrences k pks)))
                 (created_at row) (updated_at row))
  ∧ dom (toggle_all pks db) = dom db.
Proof.
  intros Hrow. split.
  - rewrite toggle_all_lookup, Hrow. simpl. f_equal.
    rewrite <- Nat.negb_even.
    destruct row as [t d dd [] c u], (Nat.even _); reflexivity.
  - apply set_eq. intros j. rewrite !elem_of_dom, toggle_all_lookup.
    by rewrite fmap_is_Some.
Qed.

(** X2: toggle requests commute: the same requests handled in another
    order leave the same table. *)
Theorem toggle_all_any_order (pks pks' : list Z) (db : table) :
  pks ≡ₚ pks' → toggle_all pks db = toggle_all pks' db.
Proof.
  intros Hp. apply map_eq. intros k. rewrite !toggle_all_lookup.
  assert (occurrences k pks = occurrences k pks') as ->; [|done].
  unfold occurrences. by rewrite Hp.
Qed.

(** ** Deleting *)

(** X3: the delete view on a stored record redirects and removes that
    record only (the count drops by one); afterwards the record cannot be
    loaded, a second delete and an edit of the key answer 404, and a
    toggle of the key redirects without changing the table. *)
Theorem delete_removes_record (pk : Z) (db : table) (row : Todo) :
  db !! pk = Some row →
  let db' := (TodoDeleteView_post pk db).2 in
  TodoDeleteView_post pk db = (Redirect home_url, db')
  ∧ get_object pk db' = None
  ∧ (∀ k, k ≠ pk → db' !! k = db !! k)
  ∧ size db = S (size db')
  ∧ TodoDeleteView_post pk db' = (Http404, db')
  ∧ (∀ parse_date post now,
       TodoUpdateView_post parse_date pk post now db' = (Http404, db'))
  ∧ toggle_resolved pk db' = (Redirect home_url, db').
Proof.
  intros Hrow db'.
  assert (Hpost : TodoDeleteView_post pk db = (Redirect home_url, delete pk db)).
  { unfold TodoDeleteView_post, get_object. by rewrite Hrow. }
  assert (Hdb' : db' = delete pk db) by (unfold db'; by rewrite Hpost).
  clearbody db'. subst db'.
  assert (Hgone : delete pk db !! pk = None) by apply lookup_delete_eq.
  split_and!.
  - done.
  - done.
  - intros k Hk. by apply lookup_delete_ne.
  - transitivity (size (<[pk := row]> (delete pk db))).
    + by rewrite insert_delete_id.
    + by apply map_size_insert_None.
  - unfold TodoDeleteView_post, get_object. by rewrite Hgone.
  - intros parse_date post now.
    unfold TodoUpdateView_post, bind_form, get_object. by rewrite Hgone.
  - unfold toggle_resolved, filter_pk_update. f_equal.
    apply map_eq. intros k. destruct (decide (k = pk)) as [->|Hne].
    + by rewrite lookup_alter_eq, Hgone.
    + by rewrite lookup_alter_ne.
Qed.

(** X4: after the delete view removed a record, the listing holds
    exactly the entries it held before other than that record, and is one
    entry shorter. *)
Theorem delete_listing (pk : Z) (db : table) (row : Todo) :
  db !! pk = Some row →
  let listing := objects_all (TodoDeleteView_post pk db).2 in
  (∀ k r, (k, r) ∈ listing ↔ k ≠ pk ∧ (k, r) ∈ objects_all db)
  ∧ S (length listing) = length (objects_all db).
Proof.
  intros Hrow. unfold TodoDeleteView_post, get_object. rewrite Hrow.
  cbn [snd]. split.
  - intros k r. rewrite !elem_of_objects_all.
    destruct (decide (k = pk)) as [->|Hne].
    + rewrite lookup_delete_eq. naive_solver.
    + rewrite lookup_delete_ne by done. naive_solver.
  - rewrite !objects_all_perm, !length_map_to_list.
    transitivity (size (<[pk := row]> (delete pk db))).
    + symmetry. apply map_size_insert_None, lookup_delete_eq.
    + by rewrite insert_delete_id.
Qed.

(** ** The listing *)

(** X5: the list view renders every stored record exactly once (no
    key twice, as many entries as the table has rows), newest first. *)
Theorem listing_complete (db : table) :
  TodoListView_get db = RenderList (objects_all db)
  ∧ (∀ k r, (k, r) ∈ objects_all db ↔ db !! k = Some r)
  ∧ NoDup (objects_all db).*1
  ∧ length (objects_all db) = size db
  ∧ StronglySorted newest_first (objects_all db).
Proof.
  split_and!.
  - done.
  - apply elem_of_objects_all.
  - rewrite objects_all_perm. apply NoDup_fst_map_to_list.
  - rewrite objects_all_perm. apply length_map_to_list.
  - apply objects_all_sorted.
Qed.

(** ** More on editing *)

Lemma getattr_save_no_commit n r1 r2 c :
  n ∈ form_fields →
  getattr n (save_no_commit (mkForm r1 c)) = getattr n (save_no_commit (mkForm r2 c)).
Proof.
  unfold form_fields. rewrite !elem_of_cons, elem_of_nil.
  intros [->|[->|[->|[->|[]]]]]; reflexivity.
Qed.

Lemma form_valid_missing form pk now db :
  db !! pk = None →
  form_valid form pk now db
  = (if decide (changed_data form = []) then Redirect home_url
     else Http500 DatabaseError, db).
Proof.
  intros Hnone. unfold form_valid. case_decide as Hch.
  - by rewrite update_fields_of_unchanged.
  - rewrite update_fields_of_changed by done.
    unfold save_update_fields.
    destruct (changed_data form ++ ["updated_at"])%list as [|n l] eqn:Hl.
    { by destruct (changed_data form). }
    rewrite <- Hl. rewrite bool_decide_eq_true_2, Hnone; [done|].
    apply Forall_forall. intros m [Hm| ->%list_elem_of_singleton]%elem_of_app.
    + by eapply form_field_model_field, changed_data_form_field.
    + unfold model_fields. set_solver.
Qed.

Lemma bind_form_inr parse_date pk post db form :
  bind_form parse_date pk post db = inr form →
  db !! pk = Some (instance form)
  ∧ full_clean parse_date post = inr (cleaned form).
Proof.
  unfold bind_form, get_object. destruct (db !! pk) as [row|]; [|done].
  destruct (full_clean parse_date post) as [errors|c]; [done|].
  by intros [= <-].
Qed.

(** X6: submitting the same valid edit a second time finds nothing
    changed: it redirects and leaves the table of the first edit as it is,
    [updated_at] included, whatever the clock reads. *)
Theorem edit_resubmit_writes_nothing (parse_date : string → option date)
    (pk : Z) (post : querydict) (now now' : Z) (db : table) (row : Todo)
    (c : cleaned_data) :
  db !! pk = Some row →
  full_clean parse_date post = inr c →
  let db1 := (TodoUpdateView_post parse_date pk post now db).2 in
  TodoUpdateView_post parse_date pk post now' db1 = (Redirect home_url, db1).
Proof.
  intros Hrow Hc db1.
  destruct (form_valid_row (mkForm row c) pk now db row Hrow)
    as (row' & Hv & Hin & Hout & _).
  assert (Hdb1 : db1 = <[pk := row']> db).
  { unfold db1. rewrite (TodoUpdateView_post_valid _ _ _ _ _ row c) by done.
    by rewrite Hv. }
  clearbody db1. subst db1.
  assert (Hrow' : <[pk := row']> db !! pk = Some row') by apply lookup_insert_eq.
  rewrite (TodoUpdateView_post_valid _ _ _ _ _ row' c) by done.
  unfold form_valid. rewrite update_fields_of_unchanged; [done|].
  apply elem_of_nil_inv. intros n [Hn Hdiff]%changed_data_spec.
  apply Hdiff. cbn [instance].
  rewrite (getattr_save_no_commit n row' row c Hn).
  destruct (decide (n ∈ changed_data (mkForm row c))) as [Hch|Hch].
  - symmetry. by apply Hin.
  - rewrite Hout; [|done|by apply form_field_not_updated_at].
    destruct (decide (getattr n (save_no_commit (mkForm row c)) = getattr n row))
      as [Heq|Hne]; [done|].
    exfalso. apply Hch. by apply changed_data_spec.
Qed.

(** X7: when the record of an edit is deleted after the form was bound,
    [form_valid] does not bring it back: with changed fields the save
    fails (DatabaseError, a 500), without changes it redirects, and in
    both cases the table stays without the record. *)
Theorem edit_of_deleted_record (parse_date : string → option date)
    (pk : Z) (post : querydict) (now : Z) (db : table) (form : model_form) :
  bind_form parse_date pk post db = inr form →
  let db' := (TodoDeleteView_post pk db).2 in
  db' !! pk = None
  ∧ form_valid form pk now db'
    = (if decide (changed_data form = []) then Redirect home_url
       else Http500 DatabaseError, db').
Proof.
  intros [Hrow _]%bind_form_inr db'.
  assert (Hdb' : db' = delete pk db).
  { unfold db', TodoDeleteView_post, get_object. by rewrite Hrow. }
  clearbody db'. subst db'.
  assert (Hgone : delete pk db !! pk = None) by apply lookup_delete_eq.
  split; [done|]. by apply form_valid_missing.
Qed.


(** ** Routing *)

Lemma strip_prefix_app p s : strip_prefix p (p ++ s) = Some s.
Proof.
  induction p as [|a p IH]; simpl; [by destruct s|].
  by rewrite decide_True.
Qed.

Lemma split_string_of_uint d :
  split "/" (NilEmpty.string_of_uint d ++ "/") = [NilEmpty.string_of_uint d; ""].
Proof.
  induction d; simpl; rewrite ?IHd; reflexivity.
Qed.

Lemma int_to_python_of_N (n : N) :
  int_to_python (NilEmpty.string_of_uint (N.to_uint n)) = Some (Z.of_N n).
Proof.
  pose proof (NilEmpty.usu (N.to_uint n)) as Husu.
  destruct (NilEmpty.string_of_uint (N.to_uint n)) as [|a s] eqn:Hs.
  - exfalso. simpl in Husu. injection Husu as Hnil.
    pose proof (DecimalN.Unsigned.of_to n) as Hn. rewrite <- Hnil in Hn.
    simpl in Hn. subst n. discriminate Hnil.
  - unfold int_to_python. rewrite Husu. simpl.
    by rewrite DecimalN.Unsigned.of_to.
Qed.

Lemma match_route_with_pk prefix (pk : Z) d :
  int_to_url pk = Some d →
  match_route (WithPk prefix) (prefix ++ d ++ "/") = Some (Some pk).
Proof.
  unfold int_to_url. case_decide as Hpk; [|done]. intros [= <-].
  unfold match_route. rewrite strip_prefix_app, split_string_of_uint.
  rewrite int_to_python_of_N. simpl. by rewrite Z2N.id.
Qed.

(** X9: every URL that [reverse] gives for a route name and its key
    resolves back to that name and that key. *)
Theorem reverse_resolve (name : url_name) (args : option Z) (path : string) :
  reverse name args = Some path → resolve path = Some (name, args).
Proof.
  unfold reverse.
  destruct name; vm_compute list_find; destruct args as [pk|]; try done.
  - by intros [= <-].
  - by intros [= <-].
  - destruct (int_to_url pk) as [d|] eqn:Hd; [|done]. intros [= <-].
    pose proof (match_route_with_pk "edit/" pk d Hd) as Hm.
    unfold resolve, urlpatterns. cbn [resolve_in].
    rewrite Hm. reflexivity.
  - destruct (int_to_url pk) as [d|] eqn:Hd; [|done]. intros [= <-].
    pose proof (match_route_with_pk "delete/" pk d Hd) as Hm.
    unfold resolve, urlpatterns. cbn [resolve_in].
    rewrite Hm. reflexivity.
  - destruct (int_to_url pk) as [d|] eqn:Hd; [|done]. intros [= <-].
    pose proof (match_route_with_pk "toggle/" pk d Hd) as Hm.
    unfold resolve, urlpatterns. cbn [resolve_in].
    rewrite Hm. reflexivity.
Qed.

Lemma match_route_plain_inv p path args :
  match_route (Plain p) path = Some args → args = None ∧ path = p.
Proof. simpl. case_decide; [|done]. by intros [= <-]. Qed.

Lemma match_route_with_pk_inv prefix path args :
  match_route (WithPk prefix) path = Some args →
  ∃ pk, args = Some pk ∧ (0 ≤ pk)%Z.
Proof.
  simpl. destruct (strip_prefix prefix path) as [rest|]; [|done].
  destruct (split "/" rest) as [|digits [|[|] [|]]]; try done.
  unfold int_to_python. destruct digits as [|a s]; [done|].
  destruct (NilEmpty.uint_of_string (String a s)) as [d|]; [|done].
  simpl. intros [= <-]. eexists. split; [done|]. lia.
Qed.

(** X10: a path that resolves with a key resolves to the edit, delete
    or toggle route with a key that is not negative; one that resolves
    without a key is the path of the home or of the create route. *)
Theorem resolve_arguments (path : string) (name : url_name) (args : option Z) :
  resolve path = Some (name, args) →
  match args with
  | Some pk =>
    (0 ≤ pk)%Z ∧ name ∈ [url_edit; url_delete; url_toggle_resolved]
  | None =>
    (name = url_home ∧ path = "") ∨ (name = url_create ∧ path = "create/")
  end.
Proof.
  unfold resolve, urlpatterns. cbn [resolve_in].
  destruct (match_route (Plain "") path) as [a|] eqn:H1.
  { apply match_route_plain_inv in H1 as [-> ->]. intros [= <- <-]. by left. }
  destruct (match_route (Plain "create/") path) as [a|] eqn:H2.
  { apply match_route_plain_inv in H2 as [-> ->]. intros [= <- <-]. by right. }
  destruct (match_route (WithPk "edit/") path) as [a|] eqn:H3.
  { apply match_route_with_pk_inv in H3 as (pk & -> & Hpk).
    intros [= <- <-]. split; [done|set_solver]. }
  destruct (match_route (WithPk "delete/") path) as [a|] eqn:H4.
  { apply match_route_with_pk_inv in H4 as (pk & -> & Hpk).
    intros [= <- <-]. split; [done|set_solver]. }
  destruct (match_route (WithPk "toggle/") path) as [a|] eqn:H5; [|done].
  apply match_route_with_pk_inv in H5 as (pk & -> & Hpk).
  intros [= <- <-]. split; [done|set_solver].
Qed.

(** ** Requests through the routes *)

Lemma form_valid_table form pk now db :
  (form_valid form pk now db).2 = db
  ∨ ∃ row row', db !! pk = Some row
                ∧ (form_valid form pk now db).2 = <[pk := row']> db
                ∧ created_at row' = created_at row.
Proof.
  destruct (db !! pk) as [row|] eqn:Hrow.
  - destruct (form_valid_row form pk now db row Hrow)
      as (row' & Hv & _ & Hout & _).
    right. exists row, row'. rewrite Hv. split_and!; [done..|].
    assert (Hc : getattr "created_at" row' = getattr "created_at" row).
    { apply Hout; [|done]. intros Hin%changed_data_form_field.
      unfold form_fields in Hin. set_solver. }
    vm_compute in Hc. by simplify_eq.
  - left. by rewrite form_valid_missing.
Qed.

(** What one request may do to the table: nothing, or an insert, an
    update that keeps [created_at], or a delete, at one key. *)
Lemma dispatch_table parse_date m path post now db :
  let db' := (dispatch parse_date m path post now db).2 in
  db' = db
  ∨ (∃ row, db' = <[next_pk db := row]> db)
  ∨ (∃ pk row row', db !! pk = Some row ∧ db' = <[pk := row']> db
                    ∧ created_at row' = created_at row)
  ∨ (∃ pk, db' = delete pk db).
Proof.
  unfold dispatch.
  destruct (resolve path) as [[[] [pk|]]|]; try (by left);
    destruct m; try (by left); cbn zeta.
  - unfold TodoCreateView_post.
    destruct (full_clean parse_date post); [by left|].
    right. left. unfold save_new. by eexists.
  - destruct (get_object pk db); by left.
  - unfold TodoUpdateView_post.
    destruct (bind_form parse_date pk post db) as [r|form]; [by left|].
    pose proof (form_valid_table form pk now db) as Hfv.
    destruct (form_valid form pk now db) as [r db']. simpl in *.
    destruct Hfv as [->|Hfv]; [by left|]. right. right. left. by exists pk.
  - destruct (get_object pk db); by left.
  - unfold TodoDeleteView_post. destruct (get_object pk db); [|by left].
    right. right. right. by eexists.
  - destruct (db !! pk) as [row|] eqn:Hrow.
    + right. right. left. exists pk, row, (update_resolved row).
      split_and!; [done| |done]. simpl. unfold filter_pk_update.
      apply map_eq. intros k. destruct (decide (k = pk)) as [->|Hne].
      * by rewrite lookup_alter_eq, lookup_insert_eq, Hrow.
      * by rewrite lookup_alter_ne, lookup_insert_ne.
    + left. simpl. unfold filter_pk_update.
      apply map_eq. intros k. destruct (decide (k = pk)) as [->|Hne].
      * by rewrite lookup_alter_eq, Hrow.
      * by rewrite lookup_alter_ne.
  - destruct (db !! pk) as [row|] eqn:Hrow.
    + right. right. left. exists pk, row, (update_resolved row).
      split_and!; [done| |done]. simpl. unfold filter_pk_update.
      apply map_eq. intros k. destruct (decide (k = pk)) as [->|Hne].
      * by rewrite lookup_alter_eq, lookup_insert_eq, Hrow.
      * by rewrite lookup_alter_ne, lookup_insert_ne.
    + left. simpl. unfold filter_pk_update.
      apply map_eq. intros k. destruct (decide (k = pk)) as [->|Hne].
      * by rewrite lookup_alter_eq, Hrow.
      * by rewrite lookup_alter_ne.
Qed.

(** X11: no request changes the [created_at] of a record that is
    stored before and after it. *)
Theorem dispatch_keeps_created_at (parse_date : string → option date)
    (m : method) (path : string) (post : querydict) (now : Z) (db : table)
    (k : Z) (row row' : Todo) :
  db !! k = Some row →
  (dispatch parse_date m path post now db).2 !! k = Some row' →
  created_at row' = created_at row.
Proof.
  intros Hrow.
  destruct (dispatch_table parse_date m path post now db)
    as [->|[(r & ->)|[(pk & r & r' & Hr & -> & Hc)|(pk & ->)]]].
  - rewrite Hrow. by intros [= <-].
  - rewrite lookup_insert_ne; [rewrite Hrow; by intros [= <-]|].
    intros Heq. rewrite <- Heq, next_pk_fresh in Hrow. done.
  - destruct (decide (pk = k)) as [->|Hne].
    + rewrite lookup_insert_eq. intros [= <-]. by simplify_eq.
    + rewrite lookup_insert_ne by done. rewrite Hrow. by intros [= <-].
  - destruct (decide (pk = k)) as [->|Hne].
    + by rewrite lookup_delete_eq.
    + rewrite lookup_delete_ne by done. rewrite Hrow. by intros [= <-].
Qed.

(** X12: a request changes the table at one key at most. *)
Theorem dispatch_touches_one_key (parse_date : string → option date)
    (m : method) (path : string) (post : querydict) (now : Z) (db : table) :
  ∃ k0, ∀ k, k ≠ k0 →
    (dispatch parse_date m path post now db).2 !! k = db !! k.
Proof.
  destruct (dispatch_table parse_date m path post now db)
    as [->|[(r & ->)|[(pk & r & r' & Hr & -> & Hc)|(pk & ->)]]].
  - by exists 0%Z.
  - exists (next_pk db). intros k Hk. by rewrite lookup_insert_ne.
  - exists pk. intros k Hk. by rewrite lookup_insert_ne.
  - exists pk. intros k Hk. by rewrite lookup_delete_ne.
Qed.

(** X13: a GET request leaves the table as it is unless its path
    resolves to the toggle route; there GET does what POST does: it
    redirects and flips [resolved] of a stored record. *)
Theorem get_writes_only_through_toggle (parse_date : string → option date)
    (path : string) (post : querydict) (now : Z) (db : table) :
  (dispatch parse_date GET path post now db).2
  = match resolve path with
    | Some (url_toggle_resolved, Some pk) => (toggle_resolved pk db).2
    | _ => db
    end
  ∧ (∀ pk row,
       resolve path = Some (url_toggle_resolved, Some pk) →
       db !! pk = Some row →
       dispatch parse_date GET path post now db
       = dispatch parse_date POST path post now db
       ∧ (dispatch parse_date GET path post now db).1
         = Response (Redirect home_url)
       ∧ (dispatch parse_date GET path post now db).2 !! pk
         = Some (update_resolved row)
       ∧ (dispatch parse_date GET path post now db).2 ≠ db).
Proof.
  split.
  - unfold dispatch.
    destruct (resolve path) as [[[] [pk|]]|]; try done;
      by destruct (get_object pk db).
  - intros pk row Hroute Hrow. unfold dispatch. rewrite Hroute.
    simpl. unfold filter_pk_update. split_and!; [done..| |].
    + by rewrite lookup_alter_eq, Hrow.
    + intros Heq.
      assert (Hl : alter update_resolved pk db !! pk = db !! pk) by by rewrite Heq.
      rewrite lookup_alter_eq, Hrow in Hl. simpl in Hl.
      injection Hl as Hl. destruct row as [? ? ? [] ? ?]; discriminate Hl.
Qed.

Lemma get_writes_only_through_toggle_witness :
  dispatch parse_iso_date GET "toggle/1/" ∅ 50 two_rows
  = dispatch parse_iso_date POST "toggle/1/" ∅ 50 two_rows
  ∧ (dispatch parse_iso_date GET "toggle/1/" ∅ 50 two_rows).1
    = Response (Redirect home_url)
  ∧ (dispatch parse_iso_date GET "toggle/1/" ∅ 50 two_rows).2 !! 1%Z
    = Some (update_resolved milk)
  ∧ (dispatch parse_iso_date GET "toggle/1/" ∅ 50 two_rows).2 ≠ two_rows.
Proof.
  apply (get_writes_only_through_toggle parse_iso_date "toggle/1/" ∅ 50
           two_rows).
  - reflexivity.
  - reflexivity.
Defined.

Lemma toggle_all_parity_witness :
  toggle_all [1; 2; 1; 1]%Z two_rows !! 1%Z
  = Some (mkTodo "Buy milk" "desc" None
                 (xorb false (Nat.odd (occurrences 1 [1; 2; 1; 1]%Z))) 10 10)
  ∧ dom (toggle_all [1; 2; 1; 1]%Z two_rows) = dom two_rows.
Proof. apply (toggle_all_parity [1; 2; 1; 1]%Z two_rows 1 milk). reflexivity. Defined.

Lemma toggle_all_any_order_witness :
  toggle_all [1; 2; 1]%Z two_rows = toggle_all [2; 1; 1]%Z two_rows.
Proof.
  apply (toggle_all_any_order [1; 2; 1]%Z [2; 1; 1]%Z two_rows).
  apply (bool_decide_unpack _). vm_compute. exact I.
Defined.

Lemma delete_removes_record_witness :
  let db' := (TodoDeleteView_post 1 two_rows).2 in
  TodoDeleteView_post 1 two_rows = (Redirect home_url, db')
  ∧ get_object 1 db' = None
  ∧ (∀ k, k ≠ 1%Z → db' !! k = two_rows !! k)
  ∧ size two_rows = S (size db')
  ∧ TodoDeleteView_post 1 db' = (Http404, db')
  ∧ (∀ parse_date post now,
       TodoUpdateView_post parse_date 1 post now db' = (Http404, db'))
  ∧ toggle_resolved 1 db' = (Redirect home_url, db').
Proof. apply (delete_removes_record 1 two_rows milk). reflexivity. Defined.

Lemma delete_listing_witness :
  let listing := objects_all (TodoDeleteView_post 2 two_rows).2 in
  (∀ k r, (k, r) ∈ listing ↔ k ≠ 2%Z ∧ (k, r) ∈ objects_all two_rows)
  ∧ S (length listing) = length (objects_all two_rows).
Proof. apply (delete_listing 2 two_rows bread). reflexivity. Defined.

Lemma edit_resubmit_writes_nothing_witness :
  let post := post_of [("title", "Buy oat milk"); ("description", "desc")] in
  let db1 := (TodoUpdateView_post parse_iso_date 1 post 40 two_rows).2 in
  TodoUpdateView_post parse_iso_date 1 post 41 db1 = (Redirect home_url, db1).
Proof.
  apply (edit_resubmit_writes_nothing parse_iso_date 1
           (post_of [("title", "Buy oat milk"); ("description", "desc")])
           40 41 two_rows milk
           (mkCleaned "Buy oat milk" "desc" None false)).
  - reflexivity.
  - reflexivity.
Defined.

Lemma edit_of_deleted_record_witness :
  let form := mkForm milk (mkCleaned "Buy oat milk" "desc" None false) in
  let db' := (TodoDeleteView_post 1 two_rows).2 in
  db' !! 1%Z = None
  ∧ form_valid form 1 40 db'
    = (if decide (changed_data form = []) then Redirect home_url
       else Http500 DatabaseError, db').
Proof.
  apply (edit_of_deleted_record parse_iso_date 1
           (post_of [("title", "Buy oat milk"); ("description", "desc")])
           40 two_rows
           (mkForm milk (mkCleaned "Buy oat milk" "desc" None false))).
  reflexivity.
Defined.


Lemma reverse_resolve_witness :
  resolve "toggle/42/" = Some (url_toggle_resolved, Some 42%Z).
Proof. apply (reverse_resolve url_toggle_resolved (Some 42%Z) "toggle/42/"). reflexivity. Defined.

Lemma resolve_arguments_witness :
  (0 ≤ 7)%Z ∧ url_edit ∈ [url_edit; url_delete; url_toggle_resolved].
Proof. apply (resolve_arguments "edit/007/" url_edit (Some 7%Z)). reflexivity. Defined.

Lemma dispatch_keeps_created_at_witness :
  created_at (mkTodo "Buy oat milk" "desc" None false 10 40) = created_at milk.
Proof.
  apply (dispatch_keeps_created_at parse_iso_date POST "edit/1/"
           (post_of [("title", "Buy oat milk"); ("description", "desc")])
           40 two_rows 1 milk (mkTodo "Buy oat milk" "desc" None false 10 40)).
  - reflexivity.
  - reflexivity.
Defined.
